(** * Clinic dashboard: the aggregation pipeline of
      [streamlit_clinic_dashboard_normal_v14.py]

    The script is a Streamlit page over one pandas frame, [clinic_df].
    This development embeds its data path: loading and column validation,
    month keys, the group-by/sum engine and its seven views, and the
    synthetic KPI generator with the rates derived from it.

    Conventions of the embedding.
    - A frame is the list of its rows, in file order.
    - Integer columns are [Z].  Monetary columns are exact rationals
      [Q], compared with [==]; [np.round (x, 2)] rounds an exact rational
      to the nearest hundredth, ties to even.  The binary representation
      error of float64 is outside the model.
    - A missing cell (NaN, NaT) is [None].
    - [np.random] is a generator state threaded through the sampling
      calls, in the order the script makes them. *)

From Stdlib Require Import ZArith QArith Qround Qabs List Ascii String Lia Lqa Bool.
From Stdlib Require Import Sorting.Sorted Sorting.Permutation.
From stdpp Require Import gmap strings.
Import ListNotations.

#[local] Open Scope string_scope.
#[local] Open Scope Z_scope.

(** * Part I: the program *)

(** ** Python string order

    [str.__lt__] compares code points from the left; a proper prefix is
    smaller.  On byte strings this is [String.compare]. *)

Module PyStr.

Definition lt (s t : string) : Prop := String.compare s t = Lt.
Definition le (s t : string) : Prop := String.compare s t <> Gt.

Definition ltb (s t : string) : bool := String.ltb s t.
Definition leb (s t : string) : bool := String.leb s t.

End PyStr.

(** ** [sorted] and [Series.unique]

    [sorted] is stable: of two elements that compare equal the one that
    came first stays first.  [unique] keeps the first occurrence of every
    value, in order of appearance. *)

Fixpoint insert_sorted {A : Type} (leb : A -> A -> bool) (x : A)
    (l : list A) : list A :=
  match l with
  | [] => [x]
  | y :: t => if leb x y then x :: l else y :: insert_sorted leb x t
  end.

Definition sorted {A : Type} (leb : A -> A -> bool) (l : list A) : list A :=
  foldr (insert_sorted leb) [] l.

Fixpoint unique_from {A : Type} `{EqDecision A} (seen : list A)
    (l : list A) : list A :=
  match l with
  | [] => []
  | x :: t =>
      if decide (x ∈ seen) then unique_from seen t
      else x :: unique_from (x :: seen) t
  end.

Definition unique {A : Type} `{EqDecision A} (l : list A) : list A :=
  unique_from [] l.

(** ** Decimal text of integers: [str(n)] and the format [{n:02d}] *)

Definition digit_char (d : Z) : ascii := ascii_of_N (48 + Z.to_N d).

Fixpoint digits_aux (fuel : nat) (n : Z) (acc : string) : string :=
  match fuel with
  | O => acc
  | S fuel' =>
      let acc' := String (digit_char (n mod 10)) acc in
      if n / 10 =? 0 then acc' else digits_aux fuel' (n / 10) acc'
  end.

Definition str_nat (n : Z) : string :=
  digits_aux (S (Z.to_nat (Z.log2 n))) n "".

Definition str_int (n : Z) : string :=
  if n <? 0 then ("-" ++ str_nat (- n))%string else str_nat n.

Definition fmt_02d (n : Z) : string :=
  if (0 <=? n) && (n <? 10) then ("0" ++ str_int n)%string else str_int n.

(** ** Calendar dates, monthly periods and month keys

    A [Date] cell is a pandas [Timestamp]; the model keeps its calendar
    day.  [Timestamp] covers 1677-09-21 .. 2262-04-11. *)

Record date := mkDate { year : Z; month : Z; day : Z }.

Definition date_compare (a b : date) : comparison :=
  match year a ?= year b with
  | Eq => match month a ?= month b with
          | Eq => day a ?= day b
          | c => c
          end
  | c => c
  end.

Definition date_lt (a b : date) : Prop := date_compare a b = Lt.
Definition date_leb (a b : date) : bool :=
  match date_compare a b with Gt => false | _ => true end.

Definition is_leap (y : Z) : bool :=
  ((y mod 4 =? 0) && negb (y mod 100 =? 0)) || (y mod 400 =? 0).

Definition days_in_month (y m : Z) : Z :=
  if m =? 2 then (if is_leap y then 29 else 28)
  else if (m =? 4) || (m =? 6) || (m =? 9) || (m =? 11) then 30
  else 31.

Definition timestamp_min : date := mkDate 1677 9 21.
Definition timestamp_max : date := mkDate 2262 4 11.

Definition timestamp_ok (d : date) : bool :=
  (1 <=? month d) && (month d <=? 12) &&
  (1 <=? day d) && (day d <=? days_in_month (year d) (month d)) &&
  date_leb timestamp_min d && date_leb d timestamp_max.

Definition same_month (a b : date) : Prop :=
  year a = year b /\ month a = month b.

(** A monthly [Period] is a (year, month) pair; periods order by time. *)
Definition period : Type := Z * Z.

Definition to_period_M (d : date) : period := (year d, month d).

Definition period_leb (p q : period) : bool :=
  (fst p <? fst q) || ((fst p =? fst q) && (snd p <=? snd q)).

(** [str] of a monthly period: the year in decimal, a dash, the month on
    two digits. *)
Definition period_str (p : period) : string :=
  (str_int (fst p) ++ "-" ++ fmt_02d (snd p))%string.

(** [ts.to_period("M")] followed by [str]: the date-to-MonthKey function. *)
Definition month_key (d : date) : string := period_str (to_period_M d).

(** [Series.dt.to_period("M").astype(str)] on a column that may miss
    dates: [NaT] prints as ["NaT"]. *)
Definition month_of (d : option date) : string :=
  match d with
  | Some d => month_key d
  | None => "NaT"
  end.

(** The day after, and [pd.date_range(start, periods=n)] (daily). *)
Definition next_day (d : date) : date :=
  if day d <? days_in_month (year d) (month d)
  then mkDate (year d) (month d) (day d + 1)
  else if month d <? 12 then mkDate (year d) (month d + 1) 1
  else mkDate (year d + 1) 1 1.

Fixpoint date_range (start : date) (periods : nat) : list date :=
  match periods with
  | O => []
  | S n => start :: date_range (next_day start) n
  end.

(** ** The uploaded file and the frame *)

(** One row of [clinic_df], read at the six required columns.  [CPT] is
    the cell after [astype(str)]. *)
Record BillingRecord := mkRow {
  Date : option date;
  Provider : option string;
  CPT : string;
  Units : Z;
  Billed_Amount : Q;
  Net_Payment : Q
}.

Abbreviation frame := (list BillingRecord).

(** The column [clinic_df["Month"]] added at line 58. *)
Definition Month (r : BillingRecord) : string := month_of (Date r).

(** The uploaded CSV: its header and its rows.  A field of a row whose
    column is absent from the header is never read: the page stops
    before any view is computed. *)
Record csv := mkCsv { columns : list string; records : frame }.

Definition required_cols : gset string :=
  {[ "Units"; "Billed Amount"; "Net Payment"; "Date"; "Provider"; "CPT" ]}.

Inductive stop_reason :=
| NoUpload
    (* no file yet: sidebar warning, st.stop() *)
| ReadCsvRaised (col : string)
    (* pd.read_csv raised ValueError: Missing column provided to
       'parse_dates': col *)
| MissingColumns (missing : gset string).
    (* st.error lists [missing]; st.stop() *)

(** [pd.read_csv(uploaded, parse_dates=cols)] raises when a column to
    parse as dates is not in the header. *)
Definition read_csv (f : csv) (parse_dates : list string)
  : stop_reason + frame :=
  match List.find (fun c => bool_decide (c ∉ columns f)) parse_dates with
  | Some c => inl (ReadCsvRaised c)
  | None => inr (records f)
  end.

(** Lines 34-53: upload, read, validate. *)
Definition load (uploaded : option csv) : stop_reason + frame :=
  match uploaded with
  | None => inl NoUpload
  | Some f =>
      match read_csv f ["Date"] with
      | inl e => inl e
      | inr clinic_df =>
          let missing := required_cols ∖ list_to_set (columns f) in
          if decide (missing = ∅) then inr clinic_df
          else inl (MissingColumns missing)
      end
  end.

(** ** The aggregation engine: [groupby(by).agg(sum)]

    [groupby] drops the rows whose key is missing and orders the groups
    by key.  Within a group rows keep their order. *)

Definition sumZ {A : Type} (f : A -> Z) (l : list A) : Z :=
  foldr (fun r acc => f r + acc) 0 l.

Definition sumQ {A : Type} (f : A -> Q) (l : list A) : Q :=
  foldr (fun r acc => (f r + acc)%Q) 0%Q l.

Definition group_keys {A K : Type} `{EqDecision K} (leb : K -> K -> bool)
    (by_ : A -> option K) (df : list A) : list K :=
  sorted leb (unique (omap by_ df)).

Definition get_group {A K : Type} `{EqDecision K} (by_ : A -> option K)
    (df : list A) (k : K) : list A :=
  filter (fun r => by_ r = Some k) df.

Definition groupby {A K : Type} `{EqDecision K} (leb : K -> K -> bool)
    (by_ : A -> option K) (df : list A) : list (K * list A) :=
  map (fun k => (k, get_group by_ df k)) (group_keys leb by_ df).

(** A row of [.agg({"Units":"sum","Billed Amount":"sum",
    "Net Payment":"sum"}).reset_index()]. *)
Record AggregateRow (K : Type) := mkAgg {
  agg_key : K;
  agg_units : Z;
  agg_billed : Q;
  agg_net : Q
}.
Arguments mkAgg {K}.
Arguments agg_key {K}.
Arguments agg_units {K}.
Arguments agg_billed {K}.
Arguments agg_net {K}.

Definition agg_sum {K : Type} (g : K * frame) : AggregateRow K :=
  mkAgg (fst g) (sumZ Units (snd g)) (sumQ Billed_Amount (snd g))
        (sumQ Net_Payment (snd g)).

Definition groupby_sum {K : Type} `{EqDecision K} (leb : K -> K -> bool)
    (by_ : BillingRecord -> option K) (df : frame)
  : list (AggregateRow K) :=
  map agg_sum (groupby leb by_ df).

(** [sort_values(by, ascending)].  Rows that tie on the column keep the
    order they had, as numpy's sort does on short inputs; pandas leaves
    the order of ties unspecified for its default sort. *)
Definition sort_values {A : Type} (by_ : A -> Q) (ascending : bool)
    (l : list A) : list A :=
  if ascending
  then sorted (fun a b => Qle_bool (by_ a) (by_ b)) l
  else sorted (fun a b => Qle_bool (by_ b) (by_ a)) l.

(** ** 1. Executive summary (lines 58-77) *)

Definition all_months (clinic_df : frame) : list string :=
  sorted PyStr.leb (unique (map Month clinic_df)).

Definition month_rows (clinic_df : frame) (m : string) : frame :=
  filter (fun r => Month r = m) clinic_df.

Definition totals (md : frame) : Z * Q * Q :=
  (sumZ Units md, sumQ Billed_Amount md, sumQ Net_Payment md).

(** [prev_m]: the months before the selected one. *)
Definition prev_m (clinic_df : frame) (selected_month : string)
  : list string :=
  filter (fun m => PyStr.ltb m selected_month) (all_months clinic_df).

(** [(pu, pb, pp)]: the totals of [prev_m[-1]], or zeros. *)
Definition baseline (clinic_df : frame) (selected_month : string)
  : Z * Q * Q :=
  match last (prev_m clinic_df selected_month) with
  | Some m => totals (month_rows clinic_df m)
  | None => (0, 0%Q, 0%Q)
  end.

(** The three metric cards: value and signed delta. *)
Record ExecutiveSummary := mkSummary {
  units_card : Z * Z;
  billed_card : Q * Q;
  paid_card : Q * Q
}.

Definition executive_summary (clinic_df : frame) (selected_month : string)
  : ExecutiveSummary :=
  let '(tm_units, tm_billed, tm_paid) :=
    totals (month_rows clinic_df selected_month) in
  let '(pu, pb, pp) := baseline clinic_df selected_month in
  mkSummary (tm_units, tm_units - pu)
            (tm_billed, (tm_billed - pb)%Q)
            (tm_paid, (tm_paid - pp)%Q).

(** ** 2. Provider productivity (lines 82-100) *)

Definition providers (clinic_df : frame) : list string :=
  unique (omap Provider clinic_df).

(** [Series.isin(values)]: a missing cell is in no list of names. *)
Definition isin (cell : option string) (values : list string) : bool :=
  match cell with
  | Some p => bool_decide (p ∈ values)
  | None => false
  end.

(** [Date >= lo] and [Date <= hi]: comparisons with [NaT] are false. *)
Definition date_between (cell : option date) (lo hi : date) : bool :=
  match cell with
  | Some d => date_leb lo d && date_leb d hi
  | None => false
  end.

Definition fil (clinic_df : frame) (sel_prov : list string)
    (sel_range : date * date) : frame :=
  filter (fun r => isin (Provider r) sel_prov &&
                   date_between (Date r) (fst sel_range) (snd sel_range))
         clinic_df.

Inductive metric := ByUnits | ByBilled | ByNet.

Definition metric_of {K : Type} (m : metric) (r : AggregateRow K) : Q :=
  match m with
  | ByUnits => inject_Z (agg_units r)
  | ByBilled => agg_billed r
  | ByNet => agg_net r
  end.

Definition prod_sum (clinic_df : frame) (sel_prov : list string)
    (sel_range : date * date) : list (AggregateRow string) :=
  groupby_sum PyStr.leb Provider (fil clinic_df sel_prov sel_range).

Definition prod_sorted (clinic_df : frame) (sel_prov : list string)
    (sel_range : date * date) (sort_metric : metric) (asc : bool)
  : list (AggregateRow string) :=
  sort_values (metric_of sort_metric) asc
    (prod_sum clinic_df sel_prov sel_range).

(** ** 3. CPT code analysis (lines 110-114) *)

Definition cpt_groups (clinic_df : frame) : list (AggregateRow string) :=
  groupby_sum PyStr.leb (fun r => Some (CPT r)) clinic_df.

Definition cpt_sum (clinic_df : frame) : list (AggregateRow string) :=
  take 10 (sort_values (metric_of ByUnits) false (cpt_groups clinic_df)).

(** ** 4, 5. Monthly revenue trend; billed vs paid (lines 134-171)

    Both charts plot the same table [dfm]. *)

Record MonthlyRow := mkMonthly {
  dfm_Month : string;
  dfm_billed : Q;
  dfm_net : Q
}.

Definition dfm (df : frame) : list MonthlyRow :=
  map (fun g => mkMonthly (period_str (fst g))
                          (sumQ Billed_Amount (snd g))
                          (sumQ Net_Payment (snd g)))
      (groupby period_leb (fun r => to_period_M <$> Date r) df).

Definition plot_monthly_trend (df : frame) : list MonthlyRow := dfm df.
Definition plot_billed_vs_paid (df : frame) : list MonthlyRow := dfm df.

(** ** 6. Provider comparison (lines 176-198) *)

Inductive comparison_view :=
| PleaseSelectTwo
    (* st.info: no table, no chart *)
| ComparisonTable (cs : list (AggregateRow string)).

Definition provider_comparison (clinic_df : frame) (sel_two : list string)
  : comparison_view :=
  if decide (length sel_two = 2%nat) then
    let cf := filter (fun r => isin (Provider r) sel_two) clinic_df in
    ComparisonTable (groupby_sum PyStr.leb Provider cf)
  else PleaseSelectTwo.

(** ** 7. Operational and financial KPIs, synthetic (lines 201-258) *)

(** [np.rint]: the nearest integer, ties to the even one. *)
Definition rint (x : Q) : Z :=
  let f := Qfloor x in
  match (x - inject_Z f ?= 1 # 2)%Q with
  | Lt => f
  | Gt => f + 1
  | Eq => if Z.even f then f else f + 1
  end.

(** [np.round(x, 2)]: scale by 100, [rint], scale back. *)
Definition np_round2 (x : Q) : Q := (inject_Z (rint (x * 100)) / 100)%Q.

(** [np.random]: each sampler consumes generator state. *)
Record Sampler (G : Type) := mkSampler {
  poisson : Q -> G -> Z * G;
  binomial : Z -> Q -> G -> Z * G;
  normal : Q -> Q -> G -> Q * G;
  uniform : Q -> Q -> G -> Q * G;
  dirichlet : Q * Q * Q * Q -> G -> (Q * Q * Q * Q) * G
}.
Arguments poisson {G}.
Arguments binomial {G}.
Arguments normal {G}.
Arguments uniform {G}.
Arguments dirichlet {G}.

Definition Rand (G A : Type) : Type := G -> A * G.

Definition ret {G A : Type} (a : A) : Rand G A := fun g => (a, g).

Definition bind {G A B : Type} (m : Rand G A) (k : A -> Rand G B)
  : Rand G B :=
  fun g => let (a, g') := m g in k a g'.

Notation "x <- m ;; k" := (bind m (fun x => k))
  (at level 100, m at next level, right associativity).

Fixpoint for_each {G A B : Type} (l : list A) (body : A -> Rand G B)
  : Rand G (list B) :=
  match l with
  | [] => ret []
  | x :: t => y <- body x ;; ys <- for_each t body ;; ret (y :: ys)
  end.

Record KpiRecord := mkKpi {
  k_Date : date;
  k_Provider : string;
  Visits : Z;
  NoShows : Z;
  TMS : Z;
  Billed : Q;
  NetPayment : Q;
  Denials : Z;
  AR_0_30 : Q;
  AR_31_60 : Q;
  AR_61_90 : Q;
  AR_90_plus : Q;
  AvgRevPerVisit : Q
}.

(** [completed = visits - no_shows]; the record does not store it. *)
Definition completed_of (r : KpiRecord) : Z := Visits r - NoShows r.

(** The body of the two loops (lines 208-225). *)
Definition kpi_record {G : Type} (S : Sampler G) (date : date)
    (prov : string) : Rand G KpiRecord :=
  visits <- poisson S 12%Q ;;
  no_shows <- binomial S visits (10 # 100)%Q ;;
  let completed := visits - no_shows in
  tms <- binomial S completed (25 # 100)%Q ;;
  x <- normal S 200%Q 50%Q ;;
  let billed := np_round2 (inject_Z completed * x) in
  collect <- uniform S (70 # 100)%Q (95 # 100)%Q ;;
  let net_paid := np_round2 (billed * collect) in
  denials <- binomial S completed (10 # 100)%Q ;;
  let ar_tot := (billed - net_paid)%Q in
  b <- dirichlet S (2, 1, 5 # 10, 3 # 10)%Q ;;
  let '(b0, b1, b2, b3) := b in
  ret (mkKpi date prov visits no_shows tms billed net_paid denials
         (np_round2 (ar_tot * b0)) (np_round2 (ar_tot * b1))
         (np_round2 (ar_tot * b2)) (np_round2 (ar_tot * b3))
         (if 0 <? completed then (net_paid / inject_Z completed)%Q
          else 0%Q)).

Definition generate_fake_kpis {G : Type} (S : Sampler G) (ps : list string)
    (start_date : date) (days : nat) : Rand G (list KpiRecord) :=
  out <- for_each (date_range start_date days)
           (fun date => for_each ps (fun prov => kpi_record S date prov)) ;;
  ret (concat out).

(** A float64 result of a division: a number, or one of the IEEE
    specials that a zero divisor produces. *)
Inductive float64 := Finite (q : Q) | NaN | PosInf | NegInf.

(** [a / b] on int64 cells (numpy true division): no exception. *)
Definition true_divide (a b : Z) : float64 :=
  if b =? 0 then
    if a =? 0 then NaN else if 0 <? a then PosInf else NegInf
  else Finite (inject_Z a / inject_Z b).

Definition times_100 (x : float64) : float64 :=
  match x with
  | Finite q => Finite (q * 100)
  | other => other
  end.

Definition is_finite (x : float64) : bool :=
  match x with Finite _ => true | _ => false end.

(** A row of [mp] (lines 233-236). *)
Record MonthlyKpi := mkMonthlyKpi {
  mp_Month : string;
  mp_Visits : Z;
  mp_NoShows : Z;
  mp_TMS : Z;
  mp_Denials : Z;
  mp_Billed : Q;
  mp_NetPayment : Q;
  NoShowRate : float64;
  DenialRate : float64
}.

Definition kpi_month (r : KpiRecord) : option string :=
  Some (month_key (k_Date r)).

Definition mp_row (g : string * list KpiRecord) : MonthlyKpi :=
  let visits := sumZ Visits (snd g) in
  let no_shows := sumZ NoShows (snd g) in
  let denials := sumZ Denials (snd g) in
  mkMonthlyKpi (fst g) visits no_shows (sumZ TMS (snd g)) denials
    (sumQ Billed (snd g)) (sumQ NetPayment (snd g))
    (true_divide no_shows visits) (true_divide denials visits).

Definition mp (kpi : list KpiRecord) : list MonthlyKpi :=
  map mp_row (groupby PyStr.leb kpi_month kpi).

(** The four metric cards of the last month (lines 238-243). *)
Record LatestKpis := mkLatest {
  visits_last_month : Z;
  tms_pct : float64;
  no_show_rate : float64;
  denial_rate : float64
}.

Definition latest_cards (latest : MonthlyKpi) : LatestKpis :=
  mkLatest (mp_Visits latest)
    (times_100 (true_divide (mp_TMS latest) (mp_Visits latest)))
    (NoShowRate latest) (DenialRate latest).

(** A row of [aging] (line 245). *)
Definition aging_row (g : string * list KpiRecord)
  : string * (Q * Q * Q * Q) :=
  (fst g, (sumQ AR_0_30 (snd g), sumQ AR_31_60 (snd g),
           sumQ AR_61_90 (snd g), sumQ AR_90_plus (snd g))).

Definition aging (kpi : list KpiRecord) : list (string * (Q * Q * Q * Q)) :=
  map aging_row (groupby PyStr.leb kpi_month kpi).

(** Section 7 as a whole.  With no generated record the frame has no
    column at all and [kpi["Date"]] raises: [None]. *)
Definition kpi_section (fake_kpis : list KpiRecord)
  : option (LatestKpis * list (string * (Q * Q * Q * Q))) :=
  match last (mp fake_kpis) with
  | Some latest => Some (latest_cards latest, aging fake_kpis)
  | None => None
  end.

(** ** The page *)

(** What the operator chose in the widgets. *)
Record Params := mkParams {
  selected_month : string;
  sel_prov : list string;
  sel_range : date * date;
  sort_metric : metric;
  asc : bool;
  sel_two : list string
}.

Record Page := mkPage {
  page_summary : ExecutiveSummary;
  page_prod_sorted : list (AggregateRow string);
  page_cpt_sum : list (AggregateRow string);
  page_monthly_trend : list MonthlyRow;
  page_billed_vs_paid : list MonthlyRow;
  page_comparison : comparison_view;
  page_kpis : option (LatestKpis * list (string * (Q * Q * Q * Q)))
}.

Inductive outcome := Stopped (why : stop_reason) | Rendered (page : Page).

(** One run of the script, top to bottom. *)
Definition dashboard {G : Type} (S : Sampler G) (g : G)
    (uploaded : option csv) (ui : Params) : outcome :=
  match load uploaded with
  | inl why => Stopped why
  | inr clinic_df =>
      let fake_kpis :=
        fst (generate_fake_kpis S (providers clinic_df)
               (mkDate 2024 1 1) 365 g) in
      Rendered
        (mkPage
           (executive_summary clinic_df (selected_month ui))
           (prod_sorted clinic_df (sel_prov ui) (sel_range ui)
              (sort_metric ui) (asc ui))
           (cpt_sum clinic_df)
           (plot_monthly_trend clinic_df)
           (plot_billed_vs_paid clinic_df)
           (provider_comparison clinic_df (sel_two ui))
           (kpi_section fake_kpis))
  end.

(** ** Vocabulary of the properties *)




(** The order the code produces: more units first; on equal units, the
    smaller CPT code first. *)
Definition units_desc_then_cpt (x y : AggregateRow string) : Prop :=
  agg_units y < agg_units x \/
  (agg_units x = agg_units y /\ PyStr.lt (agg_key x) (agg_key y)).

(** The order of the groups as [groupby] leaves them: by CPT code. *)
Definition key_lt (x y : AggregateRow string) : Prop :=
  PyStr.lt (agg_key x) (agg_key y).


(** The same widget values, with another provider and date selection in
    the productivity view. *)
Definition set_filter (ui : Params) (sel_prov' : list string)
    (sel_range' : date * date) : Params :=
  mkParams (selected_month ui) sel_prov' sel_range' (sort_metric ui)
           (asc ui) (sel_two ui).

(** The draws stay in the support of their distributions. *)
Definition sampler_ok {G : Type} (S : Sampler G) : Prop :=
  (forall lam g, 0 <= fst (poisson S lam g)) /\
  (forall n p g, 0 <= n -> 0 <= fst (binomial S n p g) <= n) /\
  (forall lo hi g, (lo <= hi)%Q ->
     (lo <= fst (uniform S lo hi g) /\ fst (uniform S lo hi g) <= hi)%Q) /\
  (forall a g,
     let b := fst (dirichlet S a g) in
     (0 <= b.1.1.1 /\ 0 <= b.1.1.2 /\ 0 <= b.1.2 /\ 0 <= b.2 /\
      b.1.1.1 + b.1.1.2 + b.1.2 + b.2 == 1)%Q).

(** The four aging buckets of a record, added up. *)
Definition ar_sum (r : KpiRecord) : Q :=
  (AR_0_30 r + AR_31_60 r + AR_61_90 r + AR_90_plus r)%Q.



(** ** Sample inputs *)



(** A generator without state that always draws the same quantiles:
    [visits] from the Poisson law, no success from a binomial law,
    [mean + z * sd] from a normal law, [lo + t * (hi - lo)] from a uniform
    law, the shares [b] from the Dirichlet law. *)
Definition fixed_sampler (visits : Z) (z t : Q) (b : Q * Q * Q * Q)
  : Sampler unit :=
  mkSampler unit
    (fun _ g => (visits, g))
    (fun _ _ g => (0, g))
    (fun mean sd g => ((mean + z * sd)%Q, g))
    (fun lo hi g => ((lo + t * (hi - lo))%Q, g))
    (fun _ g => (b, g)).

(** One day, one provider, drawn with [fixed_sampler]. *)
Definition fixed_kpis (visits : Z) (z t : Q) (b : Q * Q * Q * Q)
  : list KpiRecord :=
  fst (generate_fake_kpis (fixed_sampler visits z t b) ["A"]
         (mkDate 2024 1 1) 1 tt).

(** Aging shares that lean to the first bucket, and the record that
    median draws produce with them: 12 visits at 200.00, 70% collected. *)
Definition typical_shares : Q * Q * Q * Q := (1 # 2, 1 # 4, 1 # 8, 1 # 8)%Q.

Definition typical_record : KpiRecord :=
  mkKpi (mkDate 2024 1 1) "A" 12 0 0 (240000 # 100) (168000 # 100) 0
        (36000 # 100) (18000 # 100) (9000 # 100) (9000 # 100)
        (168000 # 1200).

(** A month group in which nobody came. *)
Definition idle_month : string * list KpiRecord :=
  ("2024-12",
   [mkKpi (mkDate 2024 12 30) "A" 0 0 0 0 0 0 0 0 0 0 0]).

(** * Part II: properties *)

(** ** String order *)

Lemma ascii_cmp_refl (a : ascii) : Ascii.compare a a = Eq.
Proof. unfold Ascii.compare. apply N.compare_refl. Qed.

Lemma ascii_cmp_lt_trans (a b c : ascii) :
  Ascii.compare a b = Lt -> Ascii.compare b c = Lt -> Ascii.compare a c = Lt.
Proof.
  unfold Ascii.compare. rewrite !N.compare_lt_iff. apply N.lt_trans.
Qed.

Lemma str_compare_refl (s : string) : String.compare s s = Eq.
Proof.
  induction s as [|a s IH]; simpl; [reflexivity|].
  now rewrite ascii_cmp_refl.
Qed.

Lemma str_compare_eq (s t : string) : String.compare s t = Eq <-> s = t.
Proof.
  split; [apply String.compare_eq_iff|].
  intros ->. apply str_compare_refl.
Qed.

Lemma str_compare_gt_lt (s t : string) :
  String.compare s t = Gt <-> String.compare t s = Lt.
Proof.
  rewrite (String.compare_antisym t s).
  destruct (String.compare s t); simpl; split; congruence.
Qed.

Lemma str_compare_lt_trans (s t u : string) :
  String.compare s t = Lt -> String.compare t u = Lt ->
  String.compare s u = Lt.
Proof.
  revert t u. induction s as [|a s IH]; intros [|b t] [|c u]; simpl;
    try congruence.
  destruct (Ascii.compare a b) eqn:Hab; try congruence.
  - apply Ascii.compare_eq_iff in Hab. subst b.
    destruct (Ascii.compare a c); try congruence. apply IH.
  - intros _. destruct (Ascii.compare b c) eqn:Hbc; try congruence.
    + apply Ascii.compare_eq_iff in Hbc. subst c. now rewrite Hab.
    + now rewrite (ascii_cmp_lt_trans _ _ _ Hab Hbc).
Qed.


Lemma str_leb_le (s t : string) : PyStr.leb s t = true <-> PyStr.le s t.
Proof.
  unfold PyStr.leb, String.leb, PyStr.le.
  destruct (String.compare s t); split; congruence.
Qed.

Lemma str_le_lteq (s t : string) : PyStr.le s t <-> PyStr.lt s t \/ s = t.
Proof.
  unfold PyStr.le, PyStr.lt. rewrite <- str_compare_eq.
  destruct (String.compare s t); intuition congruence.
Qed.

Lemma str_lt_irrefl (s : string) : ~ PyStr.lt s s.
Proof. unfold PyStr.lt. now rewrite str_compare_refl. Qed.

Lemma str_lt_trans (s t u : string) : PyStr.lt s t -> PyStr.lt t u -> PyStr.lt s u.
Proof. apply str_compare_lt_trans. Qed.


Lemma str_le_trans (s t u : string) : PyStr.le s t -> PyStr.le t u -> PyStr.le s u.
Proof.
  rewrite !str_le_lteq. intros [H1| ->] [H2| ->]; eauto using str_lt_trans.
Qed.

Lemma str_le_lt_trans (s t u : string) : PyStr.le s t -> PyStr.lt t u -> PyStr.lt s u.
Proof. rewrite str_le_lteq. intros [H1| ->]; eauto using str_lt_trans. Qed.


Lemma str_not_le_lt (s t : string) : ~ PyStr.le s t <-> PyStr.lt t s.
Proof.
  unfold PyStr.le, PyStr.lt. rewrite <- str_compare_gt_lt.
  destruct (String.compare s t); intuition congruence.
Qed.

Lemma str_lt_not_le (s t : string) : PyStr.lt s t -> ~ PyStr.le t s.
Proof.
  intros H1 H2. apply (str_lt_irrefl t). eapply str_le_lt_trans; eauto.
Qed.

Lemma str_le_total (s t : string) : PyStr.le s t \/ PyStr.le t s.
Proof.
  destruct (String.leb_total s t) as [H|H]; [left|right];
    now apply str_leb_le.
Qed.

(** ** Sorting and deduplication *)

Section Sorting.
Context {A : Type}.
Variable leb : A -> A -> bool.

Lemma insert_sorted_perm x l : insert_sorted leb x l ≡ₚ x :: l.
Proof.
  induction l as [|y t IH]; simpl; [done|].
  destruct (leb x y); [done|].
  rewrite IH. apply perm_swap.
Qed.

Lemma sorted_perm l : sorted leb l ≡ₚ l.
Proof.
  induction l as [|x l IH]; simpl; [done|].
  now rewrite insert_sorted_perm, IH.
Qed.

Lemma elem_of_sorted x l : x ∈ sorted leb l <-> x ∈ l.
Proof. now rewrite sorted_perm. Qed.

Lemma NoDup_sorted (l : list A) : NoDup l -> NoDup (sorted leb l).
Proof. now rewrite sorted_perm. Qed.

Lemma length_sorted (l : list A) : length (sorted leb l) = length l.
Proof. now rewrite sorted_perm. Qed.

Section Order.
Variable R : A -> A -> Prop.
Hypothesis leb_true : forall x y, leb x y = true -> R x y.
Hypothesis leb_false : forall x y, leb x y = false -> R y x.
Hypothesis R_trans : forall x y z, R x y -> R y z -> R x z.

Lemma insert_sorted_sorted (x : A) (l : list A) :
  StronglySorted R l -> StronglySorted R (insert_sorted leb x l).
Proof.
  induction 1 as [|y t Ht IH Hy]; simpl.
  - repeat constructor.
  - destruct (leb x y) eqn:E.
    + constructor; [now constructor|].
      constructor; [now apply leb_true|].
      eapply Forall_impl; [exact Hy|].
      intros z Hz. simpl in Hz. eauto.
    + constructor; [exact IH|].
      rewrite insert_sorted_perm. constructor; [|exact Hy].
      now apply leb_false.
Qed.

Lemma sorted_sorted (l : list A) : StronglySorted R (sorted leb l).
Proof.
  induction l as [|x l IH]; simpl; [constructor|].
  now apply insert_sorted_sorted.
Qed.
End Order.
End Sorting.

Section Unique.
Context {A : Type} `{EqDecision A}.

Lemma elem_of_unique_from (seen l : list A) (x : A) :
  x ∈ unique_from seen l <-> x ∈ l /\ x ∉ seen.
Proof.
  revert seen. induction l as [|y t IH]; intros seen; simpl.
  - rewrite !elem_of_nil. tauto.
  - destruct (decide (y ∈ seen)) as [Hy|Hy].
    + rewrite IH, elem_of_cons. split; [tauto|].
      intros [[->|H] Hs]; tauto.
    + rewrite !elem_of_cons, IH, not_elem_of_cons.
      destruct (decide (x = y)) as [->|Hxy]; tauto.
Qed.

Lemma NoDup_unique_from (seen l : list A) : NoDup (unique_from seen l).
Proof.
  revert seen. induction l as [|y t IH]; intros seen; simpl.
  - constructor.
  - destruct (decide (y ∈ seen)); [apply IH|].
    apply NoDup_cons. split; [|apply IH].
    rewrite elem_of_unique_from, not_elem_of_cons. tauto.
Qed.

Lemma elem_of_unique (l : list A) (x : A) : x ∈ unique l <-> x ∈ l.
Proof.
  unfold unique. rewrite elem_of_unique_from, elem_of_nil. tauto.
Qed.

Lemma NoDup_unique (l : list A) : NoDup (unique l).
Proof. apply NoDup_unique_from. Qed.
End Unique.

(** ** Month keys *)

(** Linear arithmetic with division and remainder by constants. *)
Ltac divmod := Z.div_mod_to_equations; lia.

Section MonthKeyFacts.

Lemma digit_char_compare (a b : Z) :
  0 <= a <= 9 -> 0 <= b <= 9 ->
  Ascii.compare (digit_char a) (digit_char b) = (a ?= b).
Proof.
  intros Ha Hb.
  assert (a = 0 \/ a = 1 \/ a = 2 \/ a = 3 \/ a = 4 \/ a = 5 \/ a = 6 \/
          a = 7 \/ a = 8 \/ a = 9) as Ea by lia.
  assert (b = 0 \/ b = 1 \/ b = 2 \/ b = 3 \/ b = 4 \/ b = 5 \/ b = 6 \/
          b = 7 \/ b = 8 \/ b = 9) as Eb by lia.
  clear Ha Hb.
  repeat (destruct Ea as [->|Ea]); try subst a;
    repeat (destruct Eb as [->|Eb]); try subst b; reflexivity.
Qed.

Lemma digits_aux_S fuel n acc :
  digits_aux (S fuel) n acc =
  if n / 10 =? 0 then String (digit_char (n mod 10)) acc
  else digits_aux fuel (n / 10) (String (digit_char (n mod 10)) acc).
Proof. reflexivity. Qed.

(** A year of four digits prints as those four digits. *)
Lemma str_int_4 (y : Z) :
  1000 <= y <= 9999 ->
  exists a b c d,
    (0 <= a <= 9 /\ 0 <= b <= 9 /\ 0 <= c <= 9 /\ 0 <= d <= 9) /\
    y = 1000 * a + 100 * b + 10 * c + d /\
    str_int y =
      String (digit_char a) (String (digit_char b)
        (String (digit_char c) (String (digit_char d) ""))).
Proof.
  intros Hy.
  exists (y / 10 / 10 / 10), (y / 10 / 10 mod 10), (y / 10 mod 10),
    (y mod 10).
  split; [|split]; [divmod|divmod|].
  unfold str_int. replace (y <? 0) with false by divmod.
  unfold str_nat.
  assert (3 <= Z.log2 y) as Hl.
  { change 3 with (Z.log2 8). apply Z.log2_le_mono. lia. }
  destruct (Z.to_nat (Z.log2 y)) as [|[|[|f]]] eqn:Ef; try lia.
  rewrite !digits_aux_S.
  replace (y / 10 =? 0) with false by divmod.
  replace (y / 10 / 10 =? 0) with false by divmod.
  replace (y / 10 / 10 / 10 =? 0) with false by divmod.
  replace (y / 10 / 10 / 10 / 10 =? 0) with true by divmod.
  replace (y / 10 / 10 / 10 mod 10) with (y / 10 / 10 / 10) by divmod.
  reflexivity.
Qed.

Lemma fmt_02d_2 (m : Z) :
  0 <= m <= 99 ->
  fmt_02d m = String (digit_char (m / 10)) (String (digit_char (m mod 10)) "").
Proof.
  intros Hm. unfold fmt_02d, str_int.
  replace (m <? 0) with false by divmod.
  replace (0 <=? m) with true by divmod. simpl.
  unfold str_nat. destruct (m <? 10) eqn:E.
  - rewrite digits_aux_S.
    replace (m / 10 =? 0) with true by divmod.
    replace (m / 10) with 0 by divmod. reflexivity.
  - assert (3 <= Z.log2 m) as Hl.
    { change 3 with (Z.log2 8). apply Z.log2_le_mono. lia. }
    destruct (Z.to_nat (Z.log2 m)) as [|f] eqn:Ef; try lia.
    rewrite !digits_aux_S.
    replace (m / 10 =? 0) with false by divmod.
    replace (m / 10 / 10 =? 0) with true by divmod.
    replace (m / 10 mod 10) with (m / 10) by divmod.
    reflexivity.
Qed.

Lemma date_leb_year a b : date_leb a b = true -> year a <= year b.
Proof.
  unfold date_leb, date_compare.
  destruct (Z.compare_spec (year a) (year b)); try discriminate; lia.
Qed.

Lemma timestamp_ok_bounds d :
  timestamp_ok d = true ->
  1000 <= year d <= 9999 /\ 1 <= month d <= 12.
Proof.
  unfold timestamp_ok.
  rewrite !andb_true_iff. intros [[[[[H1 H2] _] _] H3] H4].
  apply date_leb_year in H3, H4.
  unfold timestamp_min, timestamp_max in *. cbn [year] in *. lia.
Qed.

(** On timestamps, comparing month keys as strings is comparing
    (year, month) as numbers. *)
Lemma month_key_compare (a b : date) :
  timestamp_ok a = true -> timestamp_ok b = true ->
  String.compare (month_key a) (month_key b) =
  (year a * 100 + month a ?= year b * 100 + month b).
Proof.
  intros Ha Hb.
  apply timestamp_ok_bounds in Ha as [Hya Hma].
  apply timestamp_ok_bounds in Hb as [Hyb Hmb].
  unfold month_key, period_str, to_period_M. cbn [fst snd].
  destruct (str_int_4 _ Hya) as (a3 & a2 & a1 & a0 & Ra & Ea & ->).
  destruct (str_int_4 _ Hyb) as (b3 & b2 & b1 & b0 & Rb & Eb & ->).
  rewrite !fmt_02d_2 by lia. simpl.
  rewrite !digit_char_compare by divmod.
  change (Ascii.compare "-" "-") with Eq. cbv iota.
  symmetry.
  destruct (Z.compare_spec a3 b3); [|apply Z.compare_lt_iff; lia
                                   |apply Z.compare_gt_iff; lia].
  destruct (Z.compare_spec a2 b2); [|apply Z.compare_lt_iff; lia
                                   |apply Z.compare_gt_iff; lia].
  destruct (Z.compare_spec a1 b1); [|apply Z.compare_lt_iff; lia
                                   |apply Z.compare_gt_iff; lia].
  destruct (Z.compare_spec a0 b0); [|apply Z.compare_lt_iff; lia
                                   |apply Z.compare_gt_iff; lia].
  destruct (Z.compare_spec (month a / 10) (month b / 10));
    [|apply Z.compare_lt_iff; divmod|apply Z.compare_gt_iff; divmod].
  destruct (Z.compare_spec (month a mod 10) (month b mod 10));
    [apply Z.compare_eq_iff|apply Z.compare_lt_iff
    |apply Z.compare_gt_iff]; divmod.
Qed.

End MonthKeyFacts.

Lemma date_lt_year_month (a b : date) :
  date_lt a b ->
  year a < year b \/ (year a = year b /\ month a <= month b).
Proof.
  unfold date_lt, date_compare.
  destruct (Z.compare_spec (year a) (year b)); try discriminate;
    [|left; assumption].
  destruct (Z.compare_spec (month a) (month b)); try discriminate;
    intros _; right; lia.
Qed.

(** C3.  The date-to-MonthKey function is stable and monotonic.  On
    timestamps, equal dates give equal keys; and if [d1] is before [d2]
    then the key of [d1] is at most the key of [d2] in Python's string
    order, the two keys being equal exactly when the dates fall in the
    same calendar month. *)
Theorem month_key_stable_monotonic (d1 d2 : date) :
  timestamp_ok d1 = true -> timestamp_ok d2 = true ->
  (d1 = d2 -> month_key d1 = month_key d2) /\
  (date_lt d1 d2 ->
     PyStr.le (month_key d1) (month_key d2) /\
     (month_key d1 = month_key d2 <-> same_month d1 d2)).
Proof.
  intros H1 H2. split; [now intros ->|].
  intros Hlt.
  pose proof (month_key_compare d1 d2 H1 H2) as Hc.
  apply timestamp_ok_bounds in H1 as [_ Hm1].
  apply timestamp_ok_bounds in H2 as [_ Hm2].
  apply date_lt_year_month in Hlt.
  split.
  - unfold PyStr.le. rewrite Hc, Z.compare_gt_iff. lia.
  - rewrite <- str_compare_eq, Hc, Z.compare_eq_iff.
    unfold same_month. lia.
Qed.

Lemma month_key_stable_monotonic_witness :
  PyStr.le (month_key (mkDate 2024 1 5)) (month_key (mkDate 2024 2 10)) /\
  (month_key (mkDate 2024 1 5) = month_key (mkDate 2024 2 10) <->
   same_month (mkDate 2024 1 5) (mkDate 2024 2 10)).
Proof.
  apply (month_key_stable_monotonic (mkDate 2024 1 5) (mkDate 2024 2 10));
    reflexivity.
Defined.

(** ** Period over period (executive summary) *)

Lemma str_leb_false (s t : string) : PyStr.leb s t = false -> PyStr.le t s.
Proof.
  intros H. apply str_le_lteq. left. apply str_not_le_lt.
  rewrite <- str_leb_le. congruence.
Qed.

Lemma sorted_str_le (l : list string) :
  StronglySorted PyStr.le (sorted PyStr.leb l).
Proof.
  apply sorted_sorted.
  - intros x y. apply str_leb_le.
  - apply str_leb_false.
  - apply str_le_trans.
Qed.

Lemma strict_of_NoDup (l : list string) :
  StronglySorted PyStr.le l -> NoDup l -> StronglySorted PyStr.lt l.
Proof.
  induction 1 as [|x t Ht IH Hx]; intros Hnd; [constructor|].
  apply NoDup_cons in Hnd as [Hx' Hnd].
  constructor; [auto|].
  rewrite Forall_forall in *. intros y Hy.
  destruct (proj1 (str_le_lteq x y) (Hx y Hy)) as [?| ->]; [done|].
  destruct Hx'. done.
Qed.

Lemma sorted_unique_strict (l : list string) :
  StronglySorted PyStr.lt (sorted PyStr.leb (unique l)).
Proof.
  apply strict_of_NoDup; [apply sorted_str_le|].
  apply NoDup_sorted, NoDup_unique.
Qed.







(** ** The aggregation engine: groups partition the keyed rows *)

Section Sums.
Context {A : Type}.









End Sums.

Section GroupByFacts.
Context {A K : Type} `{EqDecision K}.
Variable by_ : A -> option K.






Lemma elem_of_group_keys (leb : K -> K -> bool) (df : list A) (k : K) :
  k ∈ group_keys leb by_ df <-> exists r, r ∈ df /\ by_ r = Some k.
Proof.
  unfold group_keys.
  rewrite elem_of_sorted, elem_of_unique, list_elem_of_omap. done.
Qed.


Lemma groupby_keys (leb : K -> K -> bool) (df : list A) :
  map fst (groupby leb by_ df) = group_keys leb by_ df.
Proof. unfold groupby. rewrite map_map. simpl. apply map_id. Qed.




End GroupByFacts.

(** ** Mass conservation at the three group-by sites *)





(** ** Provider comparison *)



Lemma isin_true (cell : option string) (values : list string) :
  isin cell values = true <-> exists p, cell = Some p /\ p ∈ values.
Proof.
  destruct cell as [p|]; simpl.
  - rewrite bool_decide_eq_true. split; [eauto|].
    now intros (q & [= ->] & Hq).
  - split; [discriminate|]. now intros (q & [=] & _).
Qed.




(** ** Loading and validation *)

Lemma read_csv_with_Date (f : csv) :
  "Date" ∈ columns f -> read_csv f ["Date"] = inr (records f).
Proof.
  intros HD. unfold read_csv. simpl.
  rewrite bool_decide_eq_false_2; [done|]. now intros N.
Qed.

Lemma read_csv_without_Date (f : csv) :
  "Date" ∉ columns f -> read_csv f ["Date"] = inl (ReadCsvRaised "Date").
Proof.
  intros HD. unfold read_csv. simpl. now rewrite bool_decide_eq_true_2.
Qed.

(** When the header has a [Date] column, validation works as intended:
    the page stops on exactly the set of missing required columns. *)
Lemma validation_reports_missing {G : Type} (S : Sampler G) (g : G)
    (f : csv) (ui : Params) :
  "Date" ∈ columns f ->
  required_cols ∖ list_to_set (columns f) <> ∅ ->
  dashboard S g (Some f) ui =
  Stopped (MissingColumns (required_cols ∖ list_to_set (columns f))) /\
  forall c, c ∈ required_cols ∖ list_to_set (C := gset string) (columns f)
            <-> c ∈ required_cols /\ c ∉ columns f.
Proof.
  intros HD Hm. split.
  - unfold dashboard, load. rewrite read_csv_with_Date by done.
    now destruct (decide _).
  - intros c. rewrite elem_of_difference, elem_of_list_to_set. done.
Qed.

(** C7.  A file without the [Date] column never reaches validation:
    [read_csv] raises on the missing date column, whatever else is
    missing.  Here [Units] and [Date] are both absent; the page stops on
    the reader's exception, which names [Date] only, and not on the
    validation message for the missing set. *)
Theorem missing_Date_bypasses_validation {G : Type} (S : Sampler G) (g : G)
    (rows : frame) (ui : Params) :
  let f := mkCsv ["Billed Amount"; "Net Payment"; "Provider"; "CPT"] rows in
  dashboard S g (Some f) ui = Stopped (ReadCsvRaised "Date") /\
  elements (required_cols ∖ list_to_set (columns f)) ≡ₚ ["Units"; "Date"] /\
  dashboard S g (Some f) ui <>
  Stopped (MissingColumns (required_cols ∖ list_to_set (columns f))).
Proof.
  intros f.
  assert (dashboard S g (Some f) ui = Stopped (ReadCsvRaised "Date")) as E.
  { unfold dashboard, load. rewrite read_csv_without_Date; [done|].
    subst f. cbn [columns].
    apply (bool_decide_unpack ("Date" ∉ _)). vm_compute. exact I. }
  split; [exact E|split].
  - subst f. vm_compute. first [reflexivity | apply perm_swap].
  - rewrite E. discriminate.
Qed.

(** ** The filter of the productivity view is local to it *)

(** C10.  Changing the selected providers and the date range of the
    productivity view leaves the top-10 CPT table, the monthly revenue
    trend, the billed-vs-paid series and the provider comparison as they
    were (and whether the page stops, and why): they are computed from
    the whole frame. *)
Theorem filter_is_local_to_productivity {G : Type} (S : Sampler G) (g : G)
    (uploaded : option csv) (ui : Params) (sel_prov' : list string)
    (sel_range' : date * date) :
  match dashboard S g uploaded ui,
        dashboard S g uploaded (set_filter ui sel_prov' sel_range') with
  | Rendered p, Rendered p' =>
      page_cpt_sum p = page_cpt_sum p' /\
      page_monthly_trend p = page_monthly_trend p' /\
      page_billed_vs_paid p = page_billed_vs_paid p' /\
      page_comparison p = page_comparison p' /\
      page_cpt_sum p = cpt_sum (records (default (mkCsv [] []) uploaded)) /\
      page_monthly_trend p =
        dfm (records (default (mkCsv [] []) uploaded)) /\
      page_comparison p =
        provider_comparison (records (default (mkCsv [] []) uploaded))
          (sel_two ui)
  | Stopped why, Stopped why' => why = why'
  | _, _ => False
  end.
Proof.
  unfold dashboard.
  destruct (load uploaded) as [why|clinic_df] eqn:El; [done|].
  cbn [page_cpt_sum page_monthly_trend page_billed_vs_paid page_comparison
       set_filter sel_two].
  assert (clinic_df = records (default (mkCsv [] []) uploaded)) as <-.
  { unfold load in El. destruct uploaded as [f|]; [|discriminate].
    unfold read_csv in El. destruct (List.find _ _); [discriminate|].
    destruct (decide _); [|discriminate]. now injection El as <-. }
  repeat split.
Qed.

(** The productivity view itself does follow the filter. *)
Lemma filter_changes_productivity :
  let df := [mkRow (Some (mkDate 2024 1 5)) (Some "A") "90837" 1 100 80] in
  prod_sum df ["A"] (mkDate 2024 1 1, mkDate 2024 12 31) <>
  prod_sum df [] (mkDate 2024 1 1, mkDate 2024 12 31).
Proof. vm_compute. discriminate. Qed.

(** ** Top-10 CPT codes: order of the rows and of ties *)

Lemma Qle_bool_inject_Z (a b : Z) :
  Qle_bool (inject_Z a) (inject_Z b) = true <-> a <= b.
Proof. now rewrite Qle_bool_iff, <- Zle_Qle. Qed.

Lemma groupby_sum_keys {K : Type} `{EqDecision K} (leb : K -> K -> bool)
    (by_ : BillingRecord -> option K) (df : frame) :
  map agg_key (groupby_sum leb by_ df) = group_keys leb by_ df.
Proof.
  unfold groupby_sum. rewrite map_map. simpl.
  change (map (fun x : K * frame => x.1)) with (map (@fst K frame)).
  apply groupby_keys.
Qed.

Lemma StronglySorted_map_inv {A B : Type} (R : B -> B -> Prop) (f : A -> B)
    (l : list A) :
  StronglySorted R (map f l) -> StronglySorted (fun x y => R (f x) (f y)) l.
Proof.
  induction l as [|x l IH]; simpl; intros Hs; [constructor|].
  apply StronglySorted_inv in Hs as [Hs Hx].
  constructor; [auto|].
  rewrite Forall_forall in Hx. apply Forall_forall. intros y Hy. apply Hx.
  apply list_elem_of_fmap. eauto.
Qed.

Lemma cpt_groups_key_sorted (df : frame) :
  StronglySorted key_lt (cpt_groups df).
Proof.
  apply (StronglySorted_map_inv PyStr.lt agg_key).
  unfold cpt_groups. rewrite groupby_sum_keys.
  apply sorted_unique_strict.
Qed.

Lemma insert_desc_stable (x : AggregateRow string)
    (s : list (AggregateRow string)) :
  StronglySorted units_desc_then_cpt s ->
  Forall (key_lt x) s ->
  StronglySorted units_desc_then_cpt
    (insert_sorted
       (fun a b => Qle_bool (metric_of ByUnits b) (metric_of ByUnits a))
       x s).
Proof.
  induction 1 as [|y t Ht IH Hy]; intros Hx; simpl.
  - repeat constructor.
  - apply Forall_cons in Hx as [Hxy Hxt].
    rewrite Forall_forall in Hy, Hxt.
    destruct (Qle_bool (inject_Z (agg_units y)) (inject_Z (agg_units x)))
      eqn:E.
    + apply Qle_bool_inject_Z in E.
      constructor; [now constructor; [|apply Forall_forall]|].
      assert (units_desc_then_cpt x y) as Rxy.
      { unfold units_desc_then_cpt, key_lt in *.
        destruct (Z.eq_dec (agg_units x) (agg_units y));
          [right; split; [lia|done]|left; lia]. }
      constructor; [exact Rxy|].
      apply Forall_forall. intros z Hz.
      pose proof (Hy z Hz) as Ryz. pose proof (Hxt z Hz) as Kxz.
      unfold units_desc_then_cpt, key_lt in *.
      destruct (Z.eq_dec (agg_units x) (agg_units z));
        [right; split; [lia|done]|left; lia].
    + assert (agg_units x < agg_units y) as Hlt.
      { destruct (Z_lt_le_dec (agg_units x) (agg_units y)) as [?|Hle];
          [done|]. apply Qle_bool_inject_Z in Hle. congruence. }
      constructor; [apply IH; now apply Forall_forall|].
      rewrite insert_sorted_perm. constructor; [now left|].
      now apply Forall_forall.
Qed.

Lemma sort_desc_stable (l : list (AggregateRow string)) :
  StronglySorted key_lt l ->
  StronglySorted units_desc_then_cpt (sort_values (metric_of ByUnits) false l).
Proof.
  unfold sort_values.
  induction 1 as [|x t Ht IH Hx]; simpl; [constructor|].
  apply insert_desc_stable; [exact IH|].
  now rewrite sorted_perm.
Qed.



(** Two increasing lists with the same elements are the same list. *)
Lemma sorted_strict_ext (l l' : list string) :
  StronglySorted PyStr.lt l -> StronglySorted PyStr.lt l' ->
  (forall x, x ∈ l <-> x ∈ l') -> l = l'.
Proof.
  intros Hl. revert l'. induction Hl as [|x t Ht IH Hx]; intros l' Hl' Hext.
  - destruct l' as [|y t']; [done|].
    assert (y ∈ @nil string) as N by (apply Hext; left).
    now apply elem_of_nil in N.
  - destruct Hl' as [|y t' Ht' Hy].
    { assert (x ∈ @nil string) as N by (apply Hext; left).
      now apply elem_of_nil in N. }
    rewrite Forall_forall in Hx, Hy.
    assert (x = y) as ->.
    { assert (x ∈ y :: t') as Hxin by (apply Hext; left).
      assert (y ∈ x :: t) as Hyin by (apply Hext; left).
      apply elem_of_cons in Hxin as [->|Hxin]; [done|].
      apply elem_of_cons in Hyin as [->|Hyin]; [done|].
      destruct (str_lt_irrefl x).
      eapply str_lt_trans; [apply Hx, Hyin|apply Hy, Hxin]. }
    f_equal. apply IH; [done|]. intros z. split; intros Hz.
    + assert (z ∈ y :: t') as Hz' by (apply Hext; now right).
      apply elem_of_cons in Hz' as [->|Hz']; [|done].
      destruct (str_lt_irrefl y). now apply Hx.
    + assert (z ∈ y :: t) as Hz' by (apply Hext; now right).
      apply elem_of_cons in Hz' as [->|Hz']; [|done].
      destruct (str_lt_irrefl y). now apply Hy.
Qed.


(** Insertion sort maps related lists to related lists when the two
    comparisons agree on related elements. *)
Section SortRelated.
Context {A B : Type}.
Variable R : A -> B -> Prop.
Variable lebA : A -> A -> bool.
Variable lebB : B -> B -> bool.
Hypothesis leb_related :
  forall x x' y y', R x x' -> R y y' -> lebA x y = lebB x' y'.



End SortRelated.





(** ** Rounding to hundredths *)

#[local] Instance rint_proper : Proper (Qeq ==> eq) rint.
Proof.
  intros x y E. unfold rint. rewrite (Qfloor_comp x y E).
  assert ((x - inject_Z (Qfloor y) ?= 1 # 2) =
          (y - inject_Z (Qfloor y) ?= 1 # 2))%Q as ->; [|done].
  apply Qcompare_comp; [|reflexivity]. now rewrite E.
Qed.

Lemma rint_bounds (x : Q) :
  (inject_Z (rint x) - (1 # 2) <= x /\ x <= inject_Z (rint x) + (1 # 2))%Q.
Proof.
  unfold rint.
  pose proof (Qfloor_le x) as Hlo. pose proof (Qlt_floor x) as Hhi.
  rewrite inject_Z_plus in Hhi. change (inject_Z 1) with 1%Q in Hhi.
  destruct (x - inject_Z (Qfloor x) ?= 1 # 2)%Q eqn:E.
  - apply Qeq_alt in E.
    destruct (Z.even (Qfloor x)); rewrite ?inject_Z_plus;
      change (inject_Z 1) with 1%Q; split; lra.
  - apply Qlt_alt in E. split; lra.
  - apply Qgt_alt in E. rewrite inject_Z_plus.
    change (inject_Z 1) with 1%Q. split; lra.
Qed.

Lemma rint_inject_Z (z : Z) : rint (inject_Z z) = z.
Proof.
  unfold rint. rewrite Qfloor_Z.
  assert ((inject_Z z - inject_Z z ?= 1 # 2)%Q = Lt) as ->; [|done].
  apply (proj1 (Qlt_alt _ _)). generalize (inject_Z z). intros q. lra.
Qed.

Lemma rint_mono (x y : Q) : (x <= y)%Q -> rint x <= rint y.
Proof.
  intros Hxy. destruct (Z_lt_le_dec (rint y) (rint x)) as [Hlt|]; [|done].
  pose proof (rint_bounds x) as [Hx _]. pose proof (rint_bounds y) as [_ Hy].
  assert (inject_Z (rint y) + 1 <= inject_Z (rint x))%Q as Hz.
  { change 1%Q with (inject_Z 1). rewrite <- inject_Z_plus, <- Zle_Qle. lia. }
  assert (x == y)%Q as E by lra.
  rewrite E in Hlt. lia.
Qed.

Lemma np_round2_error (x : Q) :
  (- (1 # 200) <= np_round2 x - x /\ np_round2 x - x <= 1 # 200)%Q.
Proof.
  unfold np_round2, Qdiv. change (/ 100)%Q with (1 # 100)%Q.
  pose proof (rint_bounds (x * 100)) as [H1 H2]. split; lra.
Qed.

Lemma np_round2_mono (x y : Q) :
  (x <= y)%Q -> (np_round2 x <= np_round2 y)%Q.
Proof.
  intros Hxy. unfold np_round2, Qdiv. change (/ 100)%Q with (1 # 100)%Q.
  assert (rint (x * 100) <= rint (y * 100)) as H by (apply rint_mono; lra).
  rewrite Zle_Qle in H. lra.
Qed.

(** A value that already is a number of hundredths is left alone. *)
Lemma np_round2_idem (x : Q) : (np_round2 (np_round2 x) == np_round2 x)%Q.
Proof.
  unfold np_round2 at 1 3.
  assert (np_round2 x * 100 == inject_Z (rint (x * 100)))%Q as ->.
  { unfold np_round2. field. }
  now rewrite rint_inject_Z.
Qed.

Lemma np_round2_nonneg (x : Q) : (0 <= x)%Q -> (0 <= np_round2 x)%Q.
Proof.
  intros Hx. unfold np_round2, Qdiv. change (/ 100)%Q with (1 # 100)%Q.
  assert (rint 0 <= rint (x * 100)) as H by (apply rint_mono; lra).
  change 0%Q with (inject_Z 0) in H at 1. rewrite rint_inject_Z in H.
  rewrite Zle_Qle in H. change (inject_Z 0) with 0%Q in H. lra.
Qed.

(** ** The synthetic KPI generator *)

Lemma fixed_sampler_ok (visits : Z) (z t : Q) (b0 b1 b2 b3 : Q) :
  0 <= visits -> (0 <= t)%Q -> (t <= 1)%Q ->
  (0 <= b0)%Q -> (0 <= b1)%Q -> (0 <= b2)%Q -> (0 <= b3)%Q ->
  (b0 + b1 + b2 + b3 == 1)%Q ->
  sampler_ok (fixed_sampler visits z t (b0, b1, b2, b3)).
Proof.
  intros Hv Ht0 Ht1 H0 H1 H2 H3 Hb. unfold sampler_ok. simpl.
  repeat split; try done; try lia.
  - assert (0 <= t * (hi - lo))%Q by (apply Qmult_le_0_compat; lra). lra.
  - assert (0 <= (1 - t) * (hi - lo))%Q by (apply Qmult_le_0_compat; lra).
    lra.
Qed.

Section Loops.
Context {G A B : Type}.

Lemma for_each_Forall (P : B -> Prop) (l : list A) (body : A -> Rand G B) :
  (forall x g, P (fst (body x g))) ->
  forall g, Forall P (fst (for_each l body g)).
Proof.
  intros Hbody. induction l as [|x l IH]; intros g; simpl.
  - constructor.
  - unfold bind. pose proof (Hbody x g) as Hx.
    destruct (body x g) as [y g1]. pose proof (IH g1) as Hl.
    destruct (for_each l body g1) as [ys g2]. simpl in *.
    now constructor.
Qed.

Lemma for_each_length (l : list A) (body : A -> Rand G B) (g : G) :
  length (fst (for_each l body g)) = length l.
Proof.
  revert g. induction l as [|x l IH]; intros g; simpl; [done|].
  unfold bind. destruct (body x g) as [y g1]. pose proof (IH g1) as Hl.
  destruct (for_each l body g1) as [ys g2]. simpl in *. now rewrite Hl.
Qed.

End Loops.

Lemma generate_Forall {G : Type} (S : Sampler G) (P : KpiRecord -> Prop) :
  (forall date prov g, P (fst (kpi_record S date prov g))) ->
  forall ps start days g,
    Forall P (fst (generate_fake_kpis S ps start days g)).
Proof.
  intros Hrec ps start days g. unfold generate_fake_kpis, bind.
  pose proof (for_each_Forall (Forall P) (date_range start days)
                (fun date => for_each ps (fun prov => kpi_record S date prov))
                (fun date g' => for_each_Forall P ps _ (Hrec date) g') g)
    as Hall.
  destruct (for_each (date_range start days) _ g) as [out g1]. simpl in *.
  now apply Forall_concat.
Qed.

(** What one pass of the loop body yields, for draws in the support. *)
Lemma kpi_record_invariant {G : Type} (S : Sampler G) (date : date)
    (prov : string) (g : G) :
  sampler_ok S ->
  let r := fst (kpi_record S date prov g) in
  NoShows r + completed_of r = Visits r /\
  0 <= completed_of r /\
  0 <= TMS r <= completed_of r /\
  0 <= Denials r <= completed_of r /\
  AvgRevPerVisit r =
    (if 0 <? completed_of r
     then (NetPayment r / inject_Z (completed_of r))%Q else 0%Q) /\
  (Qabs (ar_sum r - (Billed r - NetPayment r)) <= 2 # 100)%Q /\
  ((0 <= Billed r)%Q ->
   (0 <= AR_0_30 r /\ 0 <= AR_31_60 r /\ 0 <= AR_61_90 r /\
    0 <= AR_90_plus r)%Q).
Proof.
  intros (Hpo & Hbi & Hun & Hdi). unfold kpi_record, bind, ret.
  pose proof (Hpo 12%Q g) as Hv.
  destruct (poisson S 12%Q g) as [visits g1]. simpl in Hv.
  pose proof (Hbi visits (10 # 100)%Q g1 Hv) as Hn.
  destruct (binomial S visits _ g1) as [no_shows g2]. simpl in Hn.
  assert (0 <= visits - no_shows) as Hc by lia.
  pose proof (Hbi _ (25 # 100)%Q g2 Hc) as Ht.
  destruct (binomial S (visits - no_shows) _ g2) as [tms g3]. simpl in Ht.
  destruct (normal S 200%Q 50%Q g3) as [x g4].
  assert (70 # 100 <= 95 # 100)%Q as Hlohi by lra.
  pose proof (Hun _ _ g4 Hlohi) as [_ Hcol].
  destruct (uniform S _ _ g4) as [collect g5]. simpl in Hcol.
  pose proof (Hbi _ (10 # 100)%Q g5 Hc) as Hd.
  destruct (binomial S (visits - no_shows) _ g5) as [denials g6]. simpl in Hd.
  pose proof (Hdi (2, 1, 5 # 10, 3 # 10)%Q g6) as Hb.
  destruct (dirichlet S _ g6) as [[[[b0 b1] b2] b3] g7].
  simpl in Hb. destruct Hb as (H0 & H1 & H2 & H3 & Hsum).
  cbn [fst]. unfold completed_of, ar_sum.
  cbn [Visits NoShows TMS Denials Billed NetPayment AvgRevPerVisit
       AR_0_30 AR_31_60 AR_61_90 AR_90_plus].
  set (billed := np_round2 (inject_Z (visits - no_shows) * x)).
  set (net_paid := np_round2 (billed * collect)).
  set (ar_tot := (billed - net_paid)%Q).
  repeat (split; [first [done | lia]|]).
  split.
  - pose proof (np_round2_error (ar_tot * b0)) as [? ?].
    pose proof (np_round2_error (ar_tot * b1)) as [? ?].
    pose proof (np_round2_error (ar_tot * b2)) as [? ?].
    pose proof (np_round2_error (ar_tot * b3)) as [? ?].
    assert (ar_tot * b0 + ar_tot * b1 + ar_tot * b2 + ar_tot * b3 ==
            ar_tot)%Q as Hshares.
    { transitivity (ar_tot * (b0 + b1 + b2 + b3))%Q; [ring|].
      rewrite Hsum. ring. }
    apply Qabs_Qle_condition. fold ar_tot. split; lra.
  - intros Hbilled.
    assert (0 <= ar_tot)%Q as Har.
    { assert (net_paid <= billed)%Q; [|unfold ar_tot; lra].
      assert (np_round2 billed == billed)%Q as Hid
        by (subst billed; apply np_round2_idem).
      assert (net_paid <= np_round2 billed)%Q; [|lra].
      apply np_round2_mono.
      assert (0 <= billed * (1 - collect))%Q
        by (apply Qmult_le_0_compat; lra).
      lra. }
    repeat split; apply np_round2_nonneg, Qmult_le_0_compat; done.
Qed.

Lemma generated_record {G : Type} (S : Sampler G) (ps : list string)
    (start : date) (days : nat) (g : G) (r : KpiRecord) :
  r ∈ fst (generate_fake_kpis S ps start days g) ->
  exists date prov g', r = fst (kpi_record S date prov g').
Proof.
  intros Hr.
  pose proof (generate_Forall S
                (fun r => exists date prov g',
                            r = fst (kpi_record S date prov g'))) as Hall.
  eapply Forall_forall in Hall; [exact Hall| |exact Hr].
  intros date prov g'. eauto.
Qed.




(** C6, as stated, fails.  A normal draw five deviations below the mean
    is negative (-50); billed is -600.00, net payment -420.00, and all
    four buckets are negative. *)
Lemma negative_aging_buckets :
  sampler_ok (fixed_sampler 12 (-5) 0 typical_shares) /\
  exists r,
    r ∈ fixed_kpis 12 (-5) 0 typical_shares /\
    (Billed r == - 600)%Q /\
    (AR_0_30 r < 0 /\ AR_31_60 r < 0 /\ AR_61_90 r < 0 /\
     AR_90_plus r < 0)%Q.
Proof.
  split; [apply fixed_sampler_ok; (lia || lra || reflexivity)|].
  eexists. split; [vm_compute; left|].
  repeat split.
Qed.

(** C6, amended.  In every generated record whose billed amount is not
    negative, the four aging buckets are not negative. *)
Theorem aging_buckets_nonneg {G : Type} (S : Sampler G)
    (ps : list string) (start : date) (days : nat) (g : G)
    (r : KpiRecord) :
  sampler_ok S ->
  r ∈ fst (generate_fake_kpis S ps start days g) ->
  (0 <= Billed r)%Q ->
  (0 <= AR_0_30 r /\ 0 <= AR_31_60 r /\ 0 <= AR_61_90 r /\
   0 <= AR_90_plus r)%Q.
Proof.
  intros Hok Hr.
  apply generated_record in Hr as (date & prov & g' & ->).
  pose proof (kpi_record_invariant S date prov g' Hok) as H.
  cbv zeta in H. tauto.
Qed.

Lemma aging_buckets_nonneg_witness :
  (0 <= AR_0_30 typical_record /\ 0 <= AR_31_60 typical_record /\
   0 <= AR_61_90 typical_record /\ 0 <= AR_90_plus typical_record)%Q.
Proof.
  apply (aging_buckets_nonneg (fixed_sampler 12 0 0 typical_shares)
           ["A"] (mkDate 2024 1 1) 1 tt typical_record).
  - apply fixed_sampler_ok; (lia || lra || reflexivity).
  - vm_compute. left.
  - vm_compute. discriminate.
Defined.

(** ** Rates of a month without visits *)

(** C1.  The code does not do what the claim asks.  For a month whose
    visits sum to zero, the no-show rate, the denial rate and the TMS
    percentage are not numbers: the divisions go through and yield NaN or
    an infinity, which the cards then display. *)
Theorem zero_visits_rates_not_finite (g : string * list KpiRecord) :
  sumZ Visits (snd g) = 0 ->
  is_finite (NoShowRate (mp_row g)) = false /\
  is_finite (DenialRate (mp_row g)) = false /\
  is_finite (tms_pct (latest_cards (mp_row g))) = false.
Proof.
  intros Hv. unfold latest_cards, mp_row. simpl. rewrite Hv.
  unfold true_divide. simpl.
  repeat split;
    repeat match goal with |- context [if ?b then _ else _] =>
      destruct b end; reflexivity.
Qed.

Lemma zero_visits_rates_not_finite_witness :
  is_finite (NoShowRate (mp_row idle_month)) = false /\
  is_finite (DenialRate (mp_row idle_month)) = false /\
  is_finite (tms_pct (latest_cards (mp_row idle_month))) = false.
Proof. apply (zero_visits_rates_not_finite idle_month). reflexivity. Defined.

(** From the generator to the cards: when every Poisson draw is 0 the
    last month has no visit and the three rate cards hold NaN. *)
Lemma idle_clinic_cards :
  fst <$> kpi_section (fixed_kpis 0 0 0 typical_shares) =
  Some (mkLatest 0 NaN NaN NaN).
Proof. reflexivity. Qed.

(** The sibling computation is guarded: without a completed visit the
    average revenue is 0, not a division. *)
Lemma avg_rev_guarded {G : Type} (S : Sampler G) (date : date)
    (prov : string) (g : G) :
  let r := fst (kpi_record S date prov g) in
  completed_of r <= 0 -> AvgRevPerVisit r = 0%Q.
Proof.
  unfold kpi_record, bind, ret.
  destruct (poisson S 12%Q g) as [visits g1].
  destruct (binomial S visits _ g1) as [no_shows g2].
  destruct (binomial S (visits - no_shows) _ g2) as [tms g3].
  destruct (normal S 200%Q 50%Q g3) as [x g4].
  destruct (uniform S _ _ g4) as [collect g5].
  destruct (binomial S (visits - no_shows) _ g5) as [denials g6].
  destruct (dirichlet S _ g6) as [[[[b0 b1] b2] b3] g7].
  cbn [fst]. unfold completed_of. cbn [Visits NoShows AvgRevPerVisit].
  intros Hc. now replace (0 <? visits - no_shows) with false by lia.
Qed.

(** ** The specification's end-to-end scenario *)

Lemma end_to_end_scenario :
  executive_summary
    [mkRow (Some (mkDate 2024 1 5)) (Some "A") "90837" 1 100 80;
     mkRow (Some (mkDate 2024 2 10)) (Some "A") "90837" 2 200 150]
    "2024-02" =
  mkSummary (2, 1) (200, 100)%Q (150, 70)%Q.
Proof. reflexivity. Qed.

(** * Part III: further properties of the views *)

(** ** [sort_values] orders the rows and loses none *)

Lemma sort_values_perm {A : Type} (by_ : A -> Q) (ascending : bool)
    (l : list A) :
  sort_values by_ ascending l ≡ₚ l.
Proof. unfold sort_values. destruct ascending; apply sorted_perm. Qed.

Lemma sort_values_sorted {A : Type} (by_ : A -> Q) (ascending : bool)
    (l : list A) :
  StronglySorted
    (fun x y => if ascending then (by_ x <= by_ y)%Q else (by_ y <= by_ x)%Q)
    (sort_values by_ ascending l).
Proof.
  unfold sort_values. destruct ascending; apply sorted_sorted.
  - intros x y. apply Qle_bool_iff.
  - intros x y E. apply Qlt_le_weak, Qnot_le_lt. rewrite <- Qle_bool_iff.
    congruence.
  - intros x y z. apply Qle_trans.
  - intros x y. apply Qle_bool_iff.
  - intros x y E. apply Qlt_le_weak, Qnot_le_lt. rewrite <- Qle_bool_iff.
    congruence.
  - intros x y z Hxy Hyz. eapply Qle_trans; eauto.
Qed.

(** X1.  The provider table shows every row of the provider aggregate
    exactly once, in non-decreasing order of the chosen metric when the
    direction is ascending and in non-increasing order otherwise. *)
Theorem prod_sorted_ordered (clinic_df : frame) (sel_prov : list string)
    (sel_range : date * date) (sort_metric : metric) (asc : bool) :
  prod_sorted clinic_df sel_prov sel_range sort_metric asc ≡ₚ
    prod_sum clinic_df sel_prov sel_range /\
  StronglySorted
    (fun x y =>
       if asc then (metric_of sort_metric x <= metric_of sort_metric y)%Q
       else (metric_of sort_metric y <= metric_of sort_metric x)%Q)
    (prod_sorted clinic_df sel_prov sel_range sort_metric asc).
Proof.
  unfold prod_sorted. split.
  - apply sort_values_perm.
  - apply sort_values_sorted.
Qed.

(** ** The rows of the provider aggregate *)

Lemma group_keys_strict {A : Type} (by_ : A -> option string)
    (df : list A) :
  StronglySorted PyStr.lt (group_keys PyStr.leb by_ df).
Proof. unfold group_keys. apply sorted_unique_strict. Qed.

(** X2.  The provider aggregate has one row per provider that is selected
    and has a record inside the date range (both ends included), in
    increasing order of provider name and without repetition.  With no
    provider selected it has no row. *)
Theorem prod_sum_rows (clinic_df : frame) (sel_prov : list string)
    (sel_range : date * date) :
  let rows := prod_sum clinic_df sel_prov sel_range in
  StronglySorted PyStr.lt (map agg_key rows) /\
  (forall p,
     p ∈ map agg_key rows <->
     p ∈ sel_prov /\
     exists r, r ∈ clinic_df /\ Provider r = Some p /\
               date_between (Date r) (fst sel_range) (snd sel_range) = true) /\
  prod_sum clinic_df [] sel_range = [].
Proof.
  intros rows. subst rows. unfold prod_sum. rewrite groupby_sum_keys.
  split; [apply group_keys_strict|split].
  - intros p. rewrite elem_of_group_keys. split.
    + intros (r & Hr & Hp). unfold fil in Hr.
      apply list_elem_of_filter in Hr as [Hr Hin].
      apply Is_true_true, andb_true_iff in Hr as [Hsel Hd].
      apply isin_true in Hsel as (q & Hq & Hsel).
      assert (q = p) as -> by congruence. eauto 6.
    + intros (Hsel & r & Hin & Hp & Hd). exists r. split; [|done].
      apply list_elem_of_filter. split; [|done].
      apply Is_true_true, andb_true_iff. split; [|done].
      apply isin_true. eauto.
  - assert (fil clinic_df [] sel_range = []) as ->; [|done].
    unfold fil. induction clinic_df as [|r df IH]; [done|].
    rewrite filter_cons. destruct (decide _) as [H|_]; [|exact IH].
    apply Is_true_true, andb_true_iff in H as [H _].
    apply isin_true in H as (q & _ & Hq). now apply elem_of_nil in Hq.
Qed.

(** ** The months of the selector partition the data *)

Lemma omap_Some_map {A B : Type} (f : A -> B) (l : list A) :
  omap (fun x => Some (f x)) l = map f l.
Proof. induction l as [|x l IH]; simpl; [done|]. now rewrite <- IH. Qed.





(** ** The ten rows kept are the ten largest *)

Lemma StronglySorted_app_elem_of {A : Type} (R : A -> A -> Prop)
    (l1 l2 : list A) (x y : A) :
  StronglySorted R (l1 ++ l2) -> x ∈ l1 -> y ∈ l2 -> R x y.
Proof.
  induction l1 as [|a l1 IH]; simpl; intros Hs Hx Hy.
  - now apply elem_of_nil in Hx.
  - apply StronglySorted_inv in Hs as [Hs Ha].
    apply elem_of_cons in Hx as [->|Hx]; [|auto].
    rewrite Forall_forall in Ha. apply Ha, elem_of_app. now right.
Qed.

(** X4.  The CPT table is the head of the ranking of all CPT codes: it
    has ten rows, or as many as there are distinct codes when these are
    fewer, and no code left out has more units than a code kept. *)
Theorem top10_dominates (clinic_df : frame) :
  let ranked :=
    sort_values (metric_of ByUnits) false (cpt_groups clinic_df) in
  ranked ≡ₚ cpt_groups clinic_df /\
  (cpt_sum clinic_df ++ drop 10 ranked)%list = ranked /\
  length (cpt_sum clinic_df) =
    Nat.min 10 (length (unique (map CPT clinic_df))) /\
  forall x y, x ∈ cpt_sum clinic_df -> y ∈ drop 10 ranked ->
              agg_units y <= agg_units x.
Proof.
  intros ranked.
  assert (ranked ≡ₚ cpt_groups clinic_df) as Hp
    by apply sort_values_perm.
  assert ((cpt_sum clinic_df ++ drop 10 ranked)%list = ranked) as Happ
    by apply take_drop.
  split; [exact Hp|split; [exact Happ|split]].
  - unfold cpt_sum. fold ranked. rewrite length_take, Hp.
    unfold cpt_groups, groupby_sum, groupby, group_keys.
    now rewrite !length_map, length_sorted, omap_Some_map.
  - intros x y Hx Hy.
    assert (StronglySorted units_desc_then_cpt ranked) as Hs
      by apply sort_desc_stable, cpt_groups_key_sorted.
    rewrite <- Happ in Hs.
    pose proof (StronglySorted_app_elem_of _ _ _ _ _ Hs Hx Hy) as R.
    unfold units_desc_then_cpt in R. lia.
Qed.

(** ** The monthly table of the two revenue charts *)










(** ** The comparison table does not follow the order of selection *)

Lemma isin_swap (cell : option string) (a b : string) :
  isin cell [a; b] = isin cell [b; a].
Proof.
  destruct cell as [p|]; simpl; [|done].
  apply bool_decide_ext. rewrite !elem_of_cons, !elem_of_nil. tauto.
Qed.

(** X6.  Choosing provider [a] then [b], or [b] then [a], gives the same
    comparison; and whatever is selected, the rows of a comparison table
    are selected providers, in increasing order of name. *)
Theorem comparison_selection_order (clinic_df : frame) (a b : string) :
  provider_comparison clinic_df [a; b] =
  provider_comparison clinic_df [b; a] /\
  forall sel cs,
    provider_comparison clinic_df sel = ComparisonTable cs ->
    StronglySorted PyStr.lt (map agg_key cs) /\
    forall p, p ∈ map agg_key cs -> p ∈ sel.
Proof.
  split.
  - unfold provider_comparison. simpl.
    rewrite (list_filter_iff (fun r => isin (Provider r) [a; b])
               (fun r => isin (Provider r) [b; a])); [done|].
    intros r. now rewrite isin_swap.
  - intros sel cs. unfold provider_comparison.
    destruct (decide (length sel = 2%nat)); [|discriminate].
    intros [= <-]. rewrite groupby_sum_keys.
    split; [apply group_keys_strict|].
    intros p Hp. apply elem_of_group_keys in Hp as (r & Hr & Hp).
    apply list_elem_of_filter in Hr as [Hr _].
    apply Is_true_true, isin_true in Hr as (q & Hq & Hin). congruence.
Qed.

(** ** When the page renders *)




(** * Part IV: further properties of the synthetic KPIs *)

(** ** The shape of the generated table *)

Lemma for_each_map {G A B C : Type} (f : B -> C) (h : A -> C) (l : list A)
    (body : A -> Rand G B) :
  (forall x g, f (fst (body x g)) = h x) ->
  forall g, map f (fst (for_each l body g)) = map h l.
Proof.
  intros Hbody. induction l as [|x l IH]; intros g; simpl; [done|].
  unfold bind. pose proof (Hbody x g) as Hx.
  destruct (body x g) as [y g1]. pose proof (IH g1) as Hl.
  destruct (for_each l body g1) as [ys g2]. simpl in *. congruence.
Qed.

Lemma kpi_record_key {G : Type} (S : Sampler G) (date : date)
    (prov : string) (g : G) :
  k_Date (fst (kpi_record S date prov g)) = date /\
  k_Provider (fst (kpi_record S date prov g)) = prov.
Proof.
  unfold kpi_record, bind, ret.
  destruct (poisson S 12%Q g) as [visits g1].
  destruct (binomial S visits _ g1) as [no_shows g2].
  destruct (binomial S (visits - no_shows) _ g2) as [tms g3].
  destruct (normal S 200%Q 50%Q g3) as [x g4].
  destruct (uniform S _ _ g4) as [collect g5].
  destruct (binomial S (visits - no_shows) _ g5) as [denials g6].
  destruct (dirichlet S _ g6) as [[[[b0 b1] b2] b3] g7].
  done.
Qed.

Lemma length_date_range (start : date) (periods : nat) :
  length (date_range start periods) = periods.
Proof.
  revert start. induction periods as [|n IH]; intros start; simpl; [done|].
  now rewrite IH.
Qed.

Lemma length_concat_const {A B : Type} (f : A -> list B) (n : nat)
    (l : list A) :
  (forall x, length (f x) = n) ->
  length (concat (map f l)) = (length l * n)%nat.
Proof.
  intros Hf. induction l as [|x l IH]; simpl; [done|].
  rewrite length_app, IH, Hf. lia.
Qed.

Lemma generate_shape {G : Type} (S : Sampler G) (ps : list string)
    (start : date) (days : nat) (g : G) :
  map (fun r => (k_Date r, k_Provider r))
      (fst (generate_fake_kpis S ps start days g)) =
  concat (map (fun d => map (fun p => (d, p)) ps) (date_range start days)).
Proof.
  unfold generate_fake_kpis, bind.
  pose proof (for_each_map
                (map (fun r => (k_Date r, k_Provider r)))
                (fun d => map (fun p => (d, p)) ps)
                (date_range start days)
                (fun date => for_each ps
                               (fun prov => kpi_record S date prov))) as H.
  specialize (H (fun d g' =>
                   for_each_map (fun r => (k_Date r, k_Provider r))
                     (fun p => (d, p)) ps _
                     (fun p g'' =>
                        match kpi_record_key S d p g'' with
                        | conj E1 E2 => f_equal2 pair E1 E2
                        end) g') g).
  destruct (for_each (date_range start days) _ g) as [rows g1].
  simpl in *. now rewrite concat_map, H.
Qed.

Lemma generate_length {G : Type} (S : Sampler G) (ps : list string)
    (start : date) (days : nat) (g : G) :
  length (fst (generate_fake_kpis S ps start days g)) =
  (days * length ps)%nat.
Proof.
  rewrite <- (length_map (fun r => (k_Date r, k_Provider r))),
    generate_shape.
  rewrite (length_concat_const _ (length ps));
    [now rewrite length_date_range|].
  intros d. apply length_map.
Qed.

(** X8.  The generator yields exactly one record for every pair of a day
    and a provider, days in the outer loop and providers in the inner
    one, whatever the draws: [days * len(ps)] records in all. *)
Theorem generate_one_record_per_pair {G : Type} (S : Sampler G)
    (ps : list string) (start : date) (days : nat) (g : G) :
  let out := fst (generate_fake_kpis S ps start days g) in
  map (fun r => (k_Date r, k_Provider r)) out =
    concat (map (fun d => map (fun p => (d, p)) ps)
                (date_range start days)) /\
  length out = (days * length ps)%nat.
Proof.
  intros out. subst out. split.
  - apply generate_shape.
  - apply generate_length.
Qed.

(** ** Counts and payments of a generated record *)

Lemma np_round2_zero : (np_round2 0 == 0)%Q.
Proof. reflexivity. Qed.

Lemma kpi_record_bounds {G : Type} (S : Sampler G) (date : date)
    (prov : string) (g : G) :
  sampler_ok S ->
  let r := fst (kpi_record S date prov g) in
  0 <= NoShows r <= Visits r /\
  0 <= TMS r <= Visits r /\
  0 <= Denials r <= Visits r /\
  ((0 <= Billed r)%Q ->
   (0 <= NetPayment r)%Q /\ (NetPayment r <= Billed r)%Q) /\
  ((Billed r <= 0)%Q ->
   (Billed r <= NetPayment r)%Q /\ (NetPayment r <= 0)%Q).
Proof.
  intros (Hpo & Hbi & Hun & Hdi). unfold kpi_record, bind, ret.
  pose proof (Hpo 12%Q g) as Hv.
  destruct (poisson S 12%Q g) as [visits g1]. simpl in Hv.
  pose proof (Hbi visits (10 # 100)%Q g1 Hv) as Hn.
  destruct (binomial S visits _ g1) as [no_shows g2]. simpl in Hn.
  assert (0 <= visits - no_shows) as Hc by lia.
  pose proof (Hbi _ (25 # 100)%Q g2 Hc) as Ht.
  destruct (binomial S (visits - no_shows) _ g2) as [tms g3]. simpl in Ht.
  destruct (normal S 200%Q 50%Q g3) as [x g4].
  assert (70 # 100 <= 95 # 100)%Q as Hlohi by lra.
  pose proof (Hun _ _ g4 Hlohi) as [Hcol0 Hcol1].
  destruct (uniform S _ _ g4) as [collect g5]. simpl in Hcol0, Hcol1.
  pose proof (Hbi _ (10 # 100)%Q g5 Hc) as Hd.
  destruct (binomial S (visits - no_shows) _ g5) as [denials g6]. simpl in Hd.
  destruct (dirichlet S _ g6) as [[[[b0 b1] b2] b3] g7].
  cbn [fst Visits NoShows TMS Denials Billed NetPayment].
  set (billed := np_round2 (inject_Z (visits - no_shows) * x)).
  assert (np_round2 billed == billed)%Q as Hid
    by (subst billed; apply np_round2_idem).
  pose proof np_round2_zero as H0.
  repeat (split; [lia|]). split; intros Hb.
  - assert (0 <= billed * collect)%Q by (apply Qmult_le_0_compat; lra).
    assert (0 <= billed * (1 - collect))%Q
      by (apply Qmult_le_0_compat; lra).
    split.
    + now apply np_round2_nonneg.
    + assert (np_round2 (billed * collect) <= np_round2 billed)%Q; [|lra].
      apply np_round2_mono. lra.
  - assert (0 <= (- billed) * collect)%Q by (apply Qmult_le_0_compat; lra).
    assert (0 <= (- billed) * (1 - collect))%Q
      by (apply Qmult_le_0_compat; lra).
    split.
    + assert (np_round2 billed <= np_round2 (billed * collect))%Q; [|lra].
      apply np_round2_mono. lra.
    + assert (np_round2 (billed * collect) <= np_round2 0)%Q; [|lra].
      apply np_round2_mono. lra.
Qed.

(** X9.  In every generated record the net payment lies between zero
    and the billed amount: collections never exceed what was billed, and
    have its sign. *)
Theorem net_payment_within_billed {G : Type} (S : Sampler G)
    (ps : list string) (start : date) (days : nat) (g : G)
    (r : KpiRecord) :
  sampler_ok S ->
  r ∈ fst (generate_fake_kpis S ps start days g) ->
  ((0 <= Billed r)%Q ->
   (0 <= NetPayment r)%Q /\ (NetPayment r <= Billed r)%Q) /\
  ((Billed r <= 0)%Q ->
   (Billed r <= NetPayment r)%Q /\ (NetPayment r <= 0)%Q).
Proof.
  intros Hok Hr.
  apply generated_record in Hr as (date & prov & g' & ->).
  pose proof (kpi_record_bounds S date prov g' Hok) as H.
  cbv zeta in H. tauto.
Qed.

Lemma net_payment_within_billed_witness :
  ((0 <= Billed typical_record)%Q ->
   (0 <= NetPayment typical_record)%Q /\
   (NetPayment typical_record <= Billed typical_record)%Q) /\
  ((Billed typical_record <= 0)%Q ->
   (Billed typical_record <= NetPayment typical_record)%Q /\
   (NetPayment typical_record <= 0)%Q).
Proof.
  apply (net_payment_within_billed (fixed_sampler 12 0 0 typical_shares)
           ["A"] (mkDate 2024 1 1) 1 tt typical_record).
  - apply fixed_sampler_ok; (lia || lra || reflexivity).
  - vm_compute. left.
Defined.

(** ** Rates of a month with visits *)

Lemma sumZ_between {A : Type} (f h : A -> Z) (l : list A) :
  Forall (fun r => 0 <= f r <= h r) l -> 0 <= sumZ f l <= sumZ h l.
Proof. induction 1 as [|x l Hx Hl IH]; simpl; lia. Qed.

Lemma true_divide_fraction (a b : Z) :
  0 <= a <= b -> 0 < b ->
  exists q, true_divide a b = Finite q /\ (0 <= q)%Q /\ (q <= 1)%Q.
Proof.
  intros Ha Hb. unfold true_divide.
  replace (b =? 0) with false by lia.
  eexists. split; [reflexivity|].
  assert (0 < inject_Z b)%Q as Hb'.
  { change 0%Q with (inject_Z 0). rewrite <- Zlt_Qlt. lia. }
  assert (0 <= inject_Z a)%Q as Ha0.
  { change 0%Q with (inject_Z 0). rewrite <- Zle_Qle. lia. }
  assert (inject_Z a <= inject_Z b)%Q as Hab by (rewrite <- Zle_Qle; lia).
  split.
  - apply Qle_shift_div_l; [done|]. lra.
  - apply Qle_shift_div_r; [done|]. lra.
Qed.

Lemma groupby_group_subset {A K : Type} `{EqDecision K}
    (leb : K -> K -> bool) (by_ : A -> option K) (df : list A)
    (g : K * list A) (P : A -> Prop) :
  Forall P df -> g ∈ groupby leb by_ df -> Forall P (snd g).
Proof.
  intros HP Hg. unfold groupby in Hg.
  apply list_elem_of_fmap in Hg as (k & -> & _). simpl.
  unfold get_group. rewrite Forall_forall in HP. apply Forall_forall.
  intros r Hr. apply list_elem_of_filter in Hr as [_ Hr]. auto.
Qed.

(** X10.  For generated records, in every month that has at least one
    visit the no-show rate and the denial rate are numbers between 0 and
    1, and the TMS percentage is a number between 0 and 100. *)
Theorem rates_are_fractions {G : Type} (S : Sampler G) (ps : list string)
    (start : date) (days : nat) (g : G) :
  sampler_ok S ->
  Forall
    (fun m =>
       0 < mp_Visits m ->
       exists ns dn tm,
         NoShowRate m = Finite ns /\ DenialRate m = Finite dn /\
         tms_pct (latest_cards m) = Finite tm /\
         (0 <= ns /\ ns <= 1 /\ 0 <= dn /\ dn <= 1 /\
          0 <= tm /\ tm <= 100)%Q)
    (mp (fst (generate_fake_kpis S ps start days g))).
Proof.
  intros Hok.
  assert (Forall (fun r => 0 <= NoShows r <= Visits r /\
                           0 <= TMS r <= Visits r /\
                           0 <= Denials r <= Visits r)
            (fst (generate_fake_kpis S ps start days g))) as Hall.
  { apply generate_Forall. intros date prov g'.
    pose proof (kpi_record_bounds S date prov g' Hok) as H.
    cbv zeta in H. tauto. }
  apply Forall_forall. intros m Hm Hv. unfold mp in Hm.
  apply list_elem_of_fmap in Hm as (grp & -> & Hgrp).
  pose proof (groupby_group_subset _ _ _ _ _ Hall Hgrp) as Hg.
  unfold latest_cards, mp_row in *. simpl in *.
  destruct (true_divide_fraction (sumZ NoShows (snd grp))
              (sumZ Visits (snd grp))) as (ns & -> & ? & ?); [|done|].
  { apply sumZ_between. eapply Forall_impl; [exact Hg|]. simpl. tauto. }
  destruct (true_divide_fraction (sumZ Denials (snd grp))
              (sumZ Visits (snd grp))) as (dn & -> & ? & ?); [|done|].
  { apply sumZ_between. eapply Forall_impl; [exact Hg|]. simpl. tauto. }
  destruct (true_divide_fraction (sumZ TMS (snd grp))
              (sumZ Visits (snd grp))) as (tm & -> & ? & ?); [|done|].
  { apply sumZ_between. eapply Forall_impl; [exact Hg|]. simpl. tauto. }
  exists ns, dn, (tm * 100)%Q. repeat split; try done; lra.
Qed.

Lemma rates_are_fractions_witness :
  Forall
    (fun m =>
       0 < mp_Visits m ->
       exists ns dn tm,
         NoShowRate m = Finite ns /\ DenialRate m = Finite dn /\
         tms_pct (latest_cards m) = Finite tm /\
         (0 <= ns /\ ns <= 1 /\ 0 <= dn /\ dn <= 1 /\
          0 <= tm /\ tm <= 100)%Q)
    (mp (fixed_kpis 12 0 0 typical_shares)).
Proof.
  apply (rates_are_fractions (fixed_sampler 12 0 0 typical_shares)
           ["A"] (mkDate 2024 1 1) 1 tt).
  apply fixed_sampler_ok; (lia || lra || reflexivity).
Defined.

(** ** The year the synthetic table covers *)

Lemma elem_of_concat {A : Type} (x : A) (ls : list (list A)) :
  x ∈ concat ls <-> exists l, x ∈ l /\ l ∈ ls.
Proof.
  induction ls as [|l ls IH]; simpl.
  - split; [intros H; now apply elem_of_nil in H|].
    intros (l & _ & H). now apply elem_of_nil in H.
  - rewrite elem_of_app, IH. split.
    + intros [H|(l' & H1 & H2)]; [exists l; split; [done|left]|].
      exists l'. split; [done|now right].
    + intros (l' & H1 & H2). apply elem_of_cons in H2 as [->|H2]; eauto.
Qed.

Lemma generated_dates {G : Type} (S : Sampler G) (ps : list string)
    (start : date) (days : nat) (g : G) (d : date) :
  ps <> [] ->
  (d ∈ map k_Date (fst (generate_fake_kpis S ps start days g)) <->
   d ∈ date_range start days).
Proof.
  intros Hps.
  pose proof (generate_shape S ps start days g) as Hshape.
  assert (map k_Date (fst (generate_fake_kpis S ps start days g)) =
          map fst (map (fun r => (k_Date r, k_Provider r))
                       (fst (generate_fake_kpis S ps start days g)))) as ->
    by now rewrite map_map.
  rewrite Hshape. clear Hshape.
  rewrite list_elem_of_fmap. split.
  - intros ([d' p] & -> & Hin). apply elem_of_concat in Hin
      as (l & Hin & Hl).
    apply list_elem_of_fmap in Hl as (d'' & -> & Hd'').
    apply list_elem_of_fmap in Hin as (p' & [= -> ->] & _). done.
  - intros Hd. destruct ps as [|p ps]; [done|].
    exists (d, p). split; [done|].
    apply elem_of_concat. exists (map (fun p => (d, p)) (p :: ps)).
    split; [left|]. apply list_elem_of_fmap. eauto.
Qed.

Lemma mp_months (kpi : list KpiRecord) :
  map mp_Month (mp kpi) = group_keys PyStr.leb kpi_month kpi.
Proof.
  unfold mp. rewrite map_map. simpl.
  change (map (fun x : string * list KpiRecord => x.1))
    with (map (@fst string (list KpiRecord))).
  apply groupby_keys.
Qed.

Lemma months_of_2024 :
  group_keys PyStr.leb (fun d => Some (month_key d))
    (date_range (mkDate 2024 1 1) 365) =
  ["2024-01"; "2024-02"; "2024-03"; "2024-04"; "2024-05"; "2024-06";
   "2024-07"; "2024-08"; "2024-09"; "2024-10"; "2024-11"; "2024-12"].
Proof. vm_compute. reflexivity. Qed.

(** X11.  As the page calls it (365 days from 2024-01-01), the generator
    covers the twelve months of 2024 whenever the data names a provider:
    the monthly table has one row per month, January to December, and
    the cards of the "last month" are those of December 2024.  When the
    data names no provider nothing is generated and the KPI section has
    nothing to show. *)
Theorem kpi_months_of_2024 {G : Type} (S : Sampler G) (ps : list string)
    (g : G) :
  let kpi := fst (generate_fake_kpis S ps (mkDate 2024 1 1) 365 g) in
  (ps <> [] ->
   map mp_Month (mp kpi) =
     ["2024-01"; "2024-02"; "2024-03"; "2024-04"; "2024-05"; "2024-06";
      "2024-07"; "2024-08"; "2024-09"; "2024-10"; "2024-11"; "2024-12"] /\
   exists latest rest,
     mp kpi = (rest ++ [latest])%list /\ mp_Month latest = "2024-12" /\
     fst <$> kpi_section kpi = Some (latest_cards latest)) /\
  (ps = [] -> kpi = [] /\ kpi_section kpi = None).
Proof.
  intros kpi. split.
  - intros Hps.
    assert (map mp_Month (mp kpi) =
            ["2024-01"; "2024-02"; "2024-03"; "2024-04"; "2024-05";
             "2024-06"; "2024-07"; "2024-08"; "2024-09"; "2024-10";
             "2024-11"; "2024-12"]) as Hm.
    { rewrite mp_months, <- months_of_2024.
      apply sorted_strict_ext; try apply group_keys_strict.
      intros k. rewrite !elem_of_group_keys. unfold kpi_month. split.
      - intros (r & Hr & Hk). exists (k_Date r). split; [|done].
        apply (generated_dates S ps _ _ g _ Hps).
        apply list_elem_of_fmap. eauto.
      - intros (d & Hd & Hk).
        apply (generated_dates S ps _ _ g _ Hps) in Hd.
        apply list_elem_of_fmap in Hd as (r & -> & Hr). eauto. }
    split; [exact Hm|].
    destruct (last (mp kpi)) as [latest|] eqn:El.
    + apply last_Some in El as Hl. destruct Hl as [rest Hl].
      exists latest, rest. split; [exact Hl|].
      split.
      * rewrite Hl, map_app in Hm. simpl in Hm.
        assert (last (map mp_Month rest ++ [mp_Month latest]) =
                Some "2024-12") as Hlast by now rewrite Hm.
        rewrite last_snoc in Hlast. congruence.
      * unfold kpi_section. now rewrite El.
    + apply last_None in El. rewrite El in Hm. discriminate.
  - intros ->.
    pose proof (generate_length S [] (mkDate 2024 1 1) 365 g) as Hlen.
    fold kpi in Hlen. rewrite Nat.mul_0_r in Hlen.
    destruct kpi; [done|discriminate].
Qed.

(** ** The aging chart against the outstanding amount *)





